(** * Confidence intervals of [intro_confidenceintervals.ipynb]

    The notebook computes two confidence intervals with closed formulas:
    one for a population proportion (cells 2 and 3) and one for a
    population mean (cells 8, 9 and 10).  Its code cells are straight-line
    arithmetic over Python floats, numpy [float64] scalars and one pandas
    column.

    Two embeddings of the same cells are given.

    - The main one reads the arithmetic over the real numbers, as the
      specification does ("a pair of real numbers", "positive real"), and
      keeps the special values and the exception of the Python run time:
      a numpy scalar is a real, an infinity or NaN; a Python division by
      zero raises [ZeroDivisionError].  Rounding, overflow and the sign of
      zero are not part of this model.
    - [Binary64] runs the same cells on IEEE 754 binary64 numbers, the
      numbers the notebook really computes with, so that the outputs the
      notebook recorded can be replayed, and so that inputs on which
      rounding or overflow decides the answer can be evaluated.

    Where a statement would fail on binary64 numbers by overflow or by the
    rounding of a count, it carries the bound on the magnitude of its
    input under which the two readings agree. *)

From Stdlib Require Import PrimFloat.
From Stdlib Require Import Reals Lra Lia ZArith List Bool Permutation.
Import ListNotations.

Set Warnings "-inexact-float".

Local Open Scope R_scope.

(** ** Values and errors of the run time *)

(** A numpy [float64] scalar, with finite values read as reals. *)
Inductive npfloat : Type :=
| Fin (x : R)
| Inf (negative : bool)
| NaN.

(** The only exception the arithmetic of the notebook can raise. *)
Inductive exn : Type :=
| ZeroDivisionError.

Inductive result (A : Type) : Type :=
| Ok (a : A)
| Raise (e : exn).

Arguments Ok {A} a.
Arguments Raise {A} e.

Definition bind {A B : Type} (r : result A) (k : A -> result B) : result B :=
  match r with
  | Ok a => k a
  | Raise e => Raise e
  end.

Notation "x <- r ;; k" := (bind r (fun x => k))
  (at level 61, r at next level, right associativity).

(** Python [x / y] on Python numbers: true division, which raises on a
    zero divisor. *)
Definition truediv (x y : R) : result R :=
  if Req_dec_T y 0 then Raise ZeroDivisionError else Ok (x / y).

(** ** numpy scalar arithmetic

    numpy does not raise on invalid operations: it warns and returns an
    infinity or NaN. *)

Definition is_neg (x : R) : bool :=
  if Rlt_dec x 0 then true else false.

Definition np_neg (a : npfloat) : npfloat :=
  match a with
  | Fin x => Fin (- x)
  | Inf s => Inf (negb s)
  | NaN => NaN
  end.

Definition np_add (a b : npfloat) : npfloat :=
  match a, b with
  | Fin x, Fin y => Fin (x + y)
  | Fin _, Inf s => Inf s
  | Inf s, Fin _ => Inf s
  | Inf s, Inf s' => if Bool.eqb s s' then Inf s else NaN
  | _, _ => NaN
  end.

Definition np_sub (a b : npfloat) : npfloat :=
  np_add a (np_neg b).

Definition np_mul (a b : npfloat) : npfloat :=
  match a, b with
  | Fin x, Fin y => Fin (x * y)
  | Fin x, Inf s => if Req_dec_T x 0 then NaN else Inf (xorb (is_neg x) s)
  | Inf s, Fin y => if Req_dec_T y 0 then NaN else Inf (xorb s (is_neg y))
  | Inf s, Inf s' => Inf (xorb s s')
  | _, _ => NaN
  end.

(** The zero divisors of the notebook are [np.sqrt(0)], a positive zero. *)
Definition np_div (a b : npfloat) : npfloat :=
  match a, b with
  | Fin x, Fin y =>
      if Req_dec_T y 0
      then (if Req_dec_T x 0 then NaN else Inf (is_neg x))
      else Fin (x / y)
  | Fin _, Inf _ => Fin 0
  | Inf s, Fin y => Inf (xorb s (is_neg y))
  | _, _ => NaN
  end.

(** [np.sqrt]: NaN on a negative argument. *)
Definition np_sqrt (a : npfloat) : npfloat :=
  match a with
  | Fin x => if Rlt_dec x 0 then NaN else Fin (sqrt x)
  | Inf false => Inf false
  | _ => NaN
  end.

(** ** The pandas column reductions of cell 8

    [Series.mean()] and [Series.std()] on a column without missing values.
    pandas divides the sum by the count and answers NaN for an empty
    column; [std] is the square root of the variance with [ddof = 1] and
    answers NaN when the count does not exceed [ddof]. *)

Definition Rsum (l : list R) : R :=
  fold_right Rplus 0 l.

Module Series.

Definition ddof : nat := 1.

Definition mean (values : list R) : npfloat :=
  let count := length values in
  if (0 <? count)%nat then Fin (Rsum values / INR count) else NaN.

Definition var (values : list R) : npfloat :=
  let count := length values in
  if (count <=? ddof)%nat then NaN
  else
    let avg := Rsum values / INR count in
    let sqr := map (fun x => (avg - x) ^ 2) values in
    Fin (Rsum sqr / INR (count - ddof)).

Definition std (values : list R) : npfloat :=
  np_sqrt (var values).

End Series.

(** ** The cells *)

(** Cell 2: [se = np.sqrt((p * (1 - p))/n)], with [p] a Python float and
    [n] a Python int. *)
Definition se_proportion (p : R) (n : Z) : result npfloat :=
  q <- truediv (p * (1 - p)) (IZR n) ;;
  Ok (np_sqrt (Fin q)).

(** Cell 9: [se = sd/np.sqrt(n)], with [sd] from pandas and [n = len(df)]. *)
Definition se_mean (sd : npfloat) (n : nat) : npfloat :=
  np_div sd (np_sqrt (Fin (INR n))).

(** Cells 3 and 10: [lcb = p - tstar * se] and [ucb = p + tstar * se]. *)
Definition lcb (estimate : npfloat) (tstar : R) (se : npfloat) : npfloat :=
  np_sub estimate (np_mul (Fin tstar) se).

Definition ucb (estimate : npfloat) (tstar : R) (se : npfloat) : npfloat :=
  np_add estimate (np_mul (Fin tstar) se).

(** Cells 2 and 3 in sequence, on the proportion [p], the sample size [n]
    and the multiplier [tstar] that cell 2 assigns. *)
Definition proportion_cells (p : R) (n : Z) (tstar : R)
    : result (npfloat * npfloat) :=
  se <- se_proportion p n ;;
  Ok (lcb (Fin p) tstar se, ucb (Fin p) tstar se).

(** Modelled from the spec: the step [p = successCount / trialCount], which
    the notebook does not have (cell 2 assigns [p = .85]).  The rest is
    cells 2 and 3. *)
Definition proportionInterval (successCount trialCount : Z)
    (confidenceMultiplier : R) : result (npfloat * npfloat) :=
  p <- truediv (IZR successCount) (IZR trialCount) ;;
  proportion_cells p trialCount confidenceMultiplier.

(** Cells 8, 9 and 10 on a column of observations. *)
Definition meanInterval (observations : list R) (confidenceMultiplier : R)
    : result (npfloat * npfloat) :=
  let mean := Series.mean observations in
  let sd := Series.std observations in
  let n := length observations in
  let se := se_mean sd n in
  Ok (lcb mean confidenceMultiplier se, ucb mean confidenceMultiplier se).

(** ** The formulas in the words of the specification *)

Definition spec_proportion (successCount trialCount : Z) : R :=
  IZR successCount / IZR trialCount.

Definition spec_se_proportion (successCount trialCount : Z) : R :=
  let p := spec_proportion successCount trialCount in
  sqrt (p * (1 - p) / IZR trialCount).

Definition spec_mean (observations : list R) : R :=
  Rsum observations / INR (length observations).

(** Sample standard deviation with the n - 1 divisor. *)
Definition spec_sd (observations : list R) : R :=
  let m := spec_mean observations in
  sqrt (Rsum (map (fun x => (x - m) ^ 2) observations)
        / (INR (length observations) - 1)).

Definition spec_se_mean (observations : list R) : R :=
  spec_sd observations / sqrt (INR (length observations)).

(** Agreement to [k] decimal places: [x] rounds to the decimal [d]. *)
Definition agrees_to (k : nat) (x d : R) : Prop :=
  Rabs (x - d) <= / 2 * / 10 ^ k.



(** ** The same cells on binary64 numbers *)

Module Binary64.

Local Open Scope float_scope.

Definition se_proportion (p n : float) : float :=
  PrimFloat.sqrt ((p * (1 - p)) / n).

Definition se_mean (sd n : float) : float :=
  sd / PrimFloat.sqrt n.

Definition lcb (estimate tstar se : float) : float :=
  estimate - tstar * se.

Definition ucb (estimate tstar se : float) : float :=
  estimate + tstar * se.

(** The column reductions of cell 8 on a float64 column without missing
    values.  The sum of a column of fewer than 8 values is a loop from
    left to right, starting from 0; the squares of cell 8's deviations are
    products. *)
Definition sum (values : list float) : float :=
  fold_left PrimFloat.add values 0.

(** [len(df)] as a float: exact up to 2^53 rows. *)
Fixpoint len (values : list float) : float :=
  match values with
  | [] => 0
  | _ :: rest => len rest + 1
  end.

Definition mean (values : list float) : float :=
  match values with
  | [] => nan
  | _ => sum values / len values
  end.

Definition var (values : list float) : float :=
  match values with
  | [] | [_] => nan
  | _ =>
      let avg := sum values / len values in
      let sqr := map (fun x => (avg - x) * (avg - x)) values in
      sum sqr / (len values - 1)
  end.

Definition std (values : list float) : float :=
  PrimFloat.sqrt (var values).

(** Cells 2 and 3 in sequence, for a sample size that is not zero. *)
Definition proportion_cells (p n tstar : float) : float * float :=
  let se := se_proportion p n in
  (lcb p tstar se, ucb p tstar se).

(** The quotient of two counts, then cells 2 and 3.  A count is read as the
    nearest float. *)
Definition proportionInterval (successCount trialCount tstar : float)
    : float * float :=
  proportion_cells (successCount / trialCount) trialCount tstar.

(** Cells 8, 9 and 10 on a column of fewer than 8 observations. *)
Definition meanInterval (observations : list float) (tstar : float)
    : float * float :=
  let m := mean observations in
  let sd := std observations in
  let n := len observations in
  let se := se_mean sd n in
  (lcb m tstar se, ucb m tstar se).

End Binary64.

(** * Properties *)

(** ** Replay of the recorded outputs *)

(** Output of cell 2. *)
Lemma cell2_recorded :
  Binary64.se_proportion 0.85 659 = 0.01390952774409444%float.
Proof. vm_compute. reflexivity. Qed.

(** Output of cell 3. *)
Lemma cell3_recorded :
  let se := Binary64.se_proportion 0.85 659 in
  (Binary64.lcb 0.85 1.96 se, Binary64.ucb 0.85 1.96 se)
  = (0.8227373256215749, 0.8772626743784251)%float.
Proof. vm_compute. reflexivity. Qed.

(** Output of cell 10, from the output of cell 9 and the mean 82.48. *)
Lemma cell10_recorded :
  let se := 3.0117104774529713%float in
  (Binary64.lcb 82.48 2.064 se, Binary64.ucb 82.48 2.064 se)
  = (76.26382957453707, 88.69617042546294)%float.
Proof. vm_compute. reflexivity. Qed.

(** Output of cell 5: the library's interval is the pair of bound formulas
    of cell 3 at the proportion [(n * p) / n] and the multiplier
    1.959963984540054. *)
Lemma cell5_recorded :
  let q := (659 * 0.85 / 659)%float in
  let se := Binary64.se_proportion q 659 in
  (Binary64.lcb q 1.959963984540054 se, Binary64.ucb q 1.959963984540054 se)
  = (0.8227378265796143, 0.8772621734203857)%float.
Proof. vm_compute. reflexivity. Qed.

(** ** Helper facts *)

Lemma truediv_nonzero (x y : R) :
  y <> 0 -> truediv x y = Ok (x / y).
Proof.
  intros Hy. unfold truediv.
  destruct (Req_dec_T y 0) as [E | _]; [contradiction | reflexivity].
Qed.

Lemma truediv_zero (x : R) :
  truediv x 0 = Raise ZeroDivisionError.
Proof.
  unfold truediv.
  destruct (Req_dec_T 0 0) as [_ | N]; [reflexivity | now elim N].
Qed.

Lemma np_sqrt_nonneg (x : R) :
  0 <= x -> np_sqrt (Fin x) = Fin (sqrt x).
Proof.
  intros Hx. simpl.
  destruct (Rlt_dec x 0) as [L | _]; [lra | reflexivity].
Qed.

Lemma np_sqrt_neg (x : R) :
  x < 0 -> np_sqrt (Fin x) = NaN.
Proof.
  intros Hx. simpl.
  destruct (Rlt_dec x 0) as [_ | N]; [reflexivity | contradiction].
Qed.

Lemma lcb_fin (e t s : R) :
  lcb (Fin e) t (Fin s) = Fin (e - t * s).
Proof. reflexivity. Qed.

Lemma ucb_fin (e t s : R) :
  ucb (Fin e) t (Fin s) = Fin (e + t * s).
Proof. reflexivity. Qed.

(** A proportion of a positive number of trials lies in the unit interval. *)
Lemma spec_proportion_range (s n : Z) :
  (0 <= s <= n)%Z -> (0 < n)%Z ->
  0 <= spec_proportion s n <= 1.
Proof.
  intros [Hs Hsn] Hn. unfold spec_proportion.
  apply IZR_le in Hs. apply IZR_le in Hsn. apply IZR_lt in Hn.
  split.
  - apply Rmult_le_pos; [exact Hs | left; now apply Rinv_0_lt_compat].
  - apply Rmult_le_reg_r with (IZR n); [exact Hn |].
    unfold Rdiv. rewrite Rmult_assoc, Rinv_l by lra. lra.
Qed.

(** The argument of the square root of cell 2 is not negative. *)
Lemma variance_term_nonneg (p : R) (n : Z) :
  0 <= p <= 1 -> (0 < n)%Z -> 0 <= p * (1 - p) / IZR n.
Proof.
  intros Hp Hn. apply IZR_lt in Hn.
  apply Rmult_le_pos; [nra | left; now apply Rinv_0_lt_compat].
Qed.

(** What cells 2 and 3 evaluate to on a proportion of the unit interval. *)
Lemma proportion_cells_eq (p : R) (n : Z) (t : R) :
  0 <= p <= 1 -> (0 < n)%Z ->
  proportion_cells p n t
  = Ok (Fin (p - t * sqrt (p * (1 - p) / IZR n)),
        Fin (p + t * sqrt (p * (1 - p) / IZR n))).
Proof.
  intros Hp Hn.
  pose proof (variance_term_nonneg p n Hp Hn) as Hq.
  assert (Hn0 : IZR n <> 0) by (apply IZR_lt in Hn; lra).
  unfold proportion_cells, se_proportion.
  rewrite (truediv_nonzero _ _ Hn0). cbn [bind].
  rewrite (np_sqrt_nonneg _ Hq), lcb_fin, ucb_fin.
  reflexivity.
Qed.

(** What [proportionInterval] evaluates to on valid counts. *)
Lemma proportionInterval_eq (s n : Z) (t : R) :
  (0 <= s <= n)%Z -> (0 < n)%Z ->
  proportionInterval s n t
  = Ok (Fin (spec_proportion s n - t * spec_se_proportion s n),
        Fin (spec_proportion s n + t * spec_se_proportion s n)).
Proof.
  intros Hs Hn.
  pose proof (spec_proportion_range s n Hs Hn) as Hp.
  assert (Hn0 : IZR n <> 0) by (apply IZR_lt in Hn; lra).
  unfold proportionInterval.
  rewrite (truediv_nonzero _ _ Hn0). cbn [bind].
  fold (spec_proportion s n).
  now rewrite (proportion_cells_eq _ n t Hp Hn).
Qed.

(** ** The proportion interval *)

(** C1: on counts with 0 <= successCount <= trialCount and trialCount > 0,
    and a positive multiplier, [proportionInterval] returns exactly
    (p - multiplier * se, p + multiplier * se), where
    p = successCount / trialCount and se = sqrt (p * (1 - p) / trialCount). *)
Theorem proportionInterval_formula (successCount trialCount : Z) (confidenceMultiplier : R) :
  (0 <= successCount <= trialCount)%Z -> (0 < trialCount)%Z ->
  0 < confidenceMultiplier ->
  let p := IZR successCount / IZR trialCount in
  let se := sqrt (p * (1 - p) / IZR trialCount) in
  proportionInterval successCount trialCount confidenceMultiplier
  = Ok (Fin (p - confidenceMultiplier * se), Fin (p + confidenceMultiplier * se)).
Proof.
  intros Hs Hn _ p se.
  exact (proportionInterval_eq successCount trialCount confidenceMultiplier Hs Hn).
Qed.

Lemma proportionInterval_formula_witness :
  (0 <= 560 <= 659)%Z /\ (0 < 659)%Z /\ 0 < 196 / 100 /\
  proportionInterval 560 659 (196 / 100)
  = Ok (Fin (560 / 659 - 196 / 100 * sqrt (560 / 659 * (1 - 560 / 659) / 659)),
        Fin (560 / 659 + 196 / 100 * sqrt (560 / 659 * (1 - 560 / 659) / 659))).
Proof.
  split; [lia | split; [lia | split; [lra |]]].
  apply (proportionInterval_formula 560 659 (196 / 100)); [lia | lia | lra].
Defined.

(** ** The mean interval *)

Lemma Rsum_nil : Rsum [] = 0.
Proof. reflexivity. Qed.

Lemma Rsum_cons (x : R) (l : list R) :
  Rsum (x :: l) = x + Rsum l.
Proof. reflexivity. Qed.

Lemma Rsum_squares_nonneg (a : R) (l : list R) :
  0 <= Rsum (map (fun x => (a - x) ^ 2) l).
Proof.
  induction l as [| x l IH]; cbn [map]; rewrite ?Rsum_nil, ?Rsum_cons.
  - lra.
  - pose proof (pow2_ge_0 (a - x)) as H. lra.
Qed.

Lemma Rsum_squares_sym (a : R) (l : list R) :
  Rsum (map (fun x => (a - x) ^ 2) l) = Rsum (map (fun x => (x - a) ^ 2) l).
Proof.
  induction l as [| x l IH]; cbn [map]; rewrite ?Rsum_nil, ?Rsum_cons.
  - reflexivity.
  - rewrite IH. ring.
Qed.

(** pandas' mean of a column that is not empty. *)
Lemma Series_mean_eq (l : list R) :
  (0 < length l)%nat -> Series.mean l = Fin (spec_mean l).
Proof.
  intros H. unfold Series.mean, spec_mean.
  destruct (Nat.ltb_spec 0 (length l)) as [_ | C]; [reflexivity | lia].
Qed.

(** pandas' standard deviation of a column of two or more values. *)
Lemma Series_std_eq (l : list R) :
  (2 <= length l)%nat -> Series.std l = Fin (spec_sd l).
Proof.
  intros H. unfold Series.std, Series.var, Series.ddof, spec_sd.
  destruct (Nat.leb_spec (length l) 1) as [C | _]; [lia |].
  fold (spec_mean l).
  assert (Hd : INR (length l - 1) = INR (length l) - 1).
  { rewrite minus_INR by lia. reflexivity. }
  assert (Hpos : 0 < INR (length l) - 1).
  { rewrite <- Hd. apply lt_0_INR. lia. }
  rewrite np_sqrt_nonneg.
  - rewrite Hd, Rsum_squares_sym. reflexivity.
  - rewrite Hd. apply Rmult_le_pos.
    + apply Rsum_squares_nonneg.
    + left. now apply Rinv_0_lt_compat.
Qed.

(** Cell 9 on a finite deviation and a positive count. *)
Lemma se_mean_fin (sd : R) (n : nat) :
  (0 < n)%nat -> se_mean (Fin sd) n = Fin (sd / sqrt (INR n)).
Proof.
  intros Hn. apply lt_0_INR in Hn. unfold se_mean.
  rewrite np_sqrt_nonneg by lra.
  pose proof (sqrt_lt_R0 _ Hn) as Hs. simpl.
  destruct (Req_dec_T (sqrt (INR n)) 0) as [E | _]; [lra | reflexivity].
Qed.

(** What [meanInterval] evaluates to on two or more observations. *)
Lemma meanInterval_eq (l : list R) (t : R) :
  (2 <= length l)%nat ->
  meanInterval l t
  = Ok (Fin (spec_mean l - t * spec_se_mean l),
        Fin (spec_mean l + t * spec_se_mean l)).
Proof.
  intros H. unfold meanInterval.
  rewrite Series_mean_eq, Series_std_eq, se_mean_fin by lia.
  reflexivity.
Qed.



(** ** Shape of the returned interval *)







(** ** The worked example of cells 2 and 3 *)

Lemma sqrt_between (x a b : R) :
  0 <= a -> 0 <= b -> a * a <= x <= b * b -> a <= sqrt x <= b.
Proof.
  intros Ha Hb [Hl Hu]. split.
  - rewrite <- (sqrt_square a Ha). now apply sqrt_le_1_alt.
  - rewrite <- (sqrt_square b Hb). now apply sqrt_le_1_alt.
Qed.

(** Standard error of cell 2, p = 0.85 and n = 659. *)
Lemma se_085_659_bounds :
  0.0139095 <= sqrt (0.85 * (1 - 0.85) / 659) <= 0.0139096.
Proof. apply sqrt_between; lra. Qed.

(** Standard error for the whole count 560 of 659. *)
Lemma se_560_659_bounds :
  0.0139182 <= spec_se_proportion 560 659 <= 0.0139183.
Proof.
  unfold spec_se_proportion, spec_proportion. apply sqrt_between; lra.
Qed.

Lemma agrees_to_intro (k : nat) (x d : R) :
  d - / 2 * / 10 ^ k <= x <= d + / 2 * / 10 ^ k -> agrees_to k x d.
Proof. intros H. unfold agrees_to. apply Rabs_le. lra. Qed.

Lemma agrees_to_elim (k : nat) (x d : R) :
  agrees_to k x d -> d - / 2 * / 10 ^ k <= x <= d + / 2 * / 10 ^ k.
Proof.
  unfold agrees_to. intros H.
  pose proof (Rle_abs (x - d)) as H1.
  pose proof (Rle_abs (- (x - d))) as H2. rewrite Rabs_Ropp in H2.
  lra.
Qed.

(** C4, amended: the notebook's example is p = 0.85, n = 659 and
    multiplier 1.96; there the standard error is 0.013910 to six places and
    the interval (0.8227, 0.8773) to four places.  The whole count of 560
    successes in 659 trials is another input, and gives (0.8225, 0.8771). *)
Theorem worked_example_interval :
  (exists se lo hi : R,
      se_proportion 0.85 659 = Ok (Fin se) /\
      agrees_to 6 se 0.013910 /\
      proportion_cells 0.85 659 1.96 = Ok (Fin lo, Fin hi) /\
      agrees_to 4 lo 0.8227 /\ agrees_to 4 hi 0.8773)
  /\
  (exists lo hi : R,
      proportionInterval 560 659 1.96 = Ok (Fin lo, Fin hi) /\
      agrees_to 4 lo 0.8225 /\ agrees_to 4 hi 0.8771).
Proof.
  split.
  - pose proof se_085_659_bounds as [Hl Hu].
    exists (sqrt (0.85 * (1 - 0.85) / 659)).
    eexists. eexists.
    split; [| split; [| split; [apply proportion_cells_eq; [lra | lia] |]]].
    + unfold se_proportion.
      rewrite truediv_nonzero by lra. cbn [bind].
      rewrite np_sqrt_nonneg by lra. reflexivity.
    + apply agrees_to_intro. cbn [pow]. lra.
    + split; apply agrees_to_intro; cbn [pow]; lra.
  - pose proof se_560_659_bounds as [Hl Hu].
    eexists. eexists.
    split; [apply proportionInterval_eq; lia |].
    unfold spec_proportion in *.
    split; apply agrees_to_intro; cbn [pow]; lra.
Qed.

(** C4 as stated fails: the interval of 560 successes in 659 trials lies
    more than 0.0002 below (0.8227, 0.8773) at both ends, so it does not
    agree with it to four decimal places. *)
Lemma proportionInterval_560_659_off :
  exists lo hi : R,
    proportionInterval 560 659 1.96 = Ok (Fin lo, Fin hi) /\
    lo < 0.8227 - 0.0002 /\ hi < 0.8773 - 0.0002 /\
    ~ agrees_to 4 lo 0.8227 /\ ~ agrees_to 4 hi 0.8773.
Proof.
  pose proof se_560_659_bounds as [Hl Hu].
  do 2 eexists.
  split; [apply proportionInterval_eq; lia |].
  unfold spec_proportion in *.
  split; [lra |]. split; [lra |].
  split; intros H; apply agrees_to_elim in H; cbn [pow] in H; lra.
Qed.

(** The same evaluation on binary64 numbers. *)
Lemma proportionInterval_560_659_binary64 :
  let p := (560 / 659)%float in
  let se := Binary64.se_proportion p 659 in
  (Binary64.lcb p 1.96 se, Binary64.ucb p 1.96 se)
  = (0.8224926842647214, 0.8770520805304226)%float.
Proof. vm_compute. reflexivity. Qed.

(** ** Width against the number of trials *)





(** On binary64 numbers the bounds themselves need not move: for
    5e11 successes in 1e12 trials and 5e11 + 1 in 1e12 + 2 the half-width
    drops, by less than the bounds can show, and the two intervals are
    equal. *)
Lemma halfwidth_rounding_binary64 :
  let se1 := Binary64.se_proportion 0.5 1000000000000 in
  let se2 := Binary64.se_proportion 0.5 1000000000002 in
  (PrimFloat.ltb (1.96 * se2) (1.96 * se1),
   Binary64.proportionInterval 500000000000 1000000000000 1.96,
   Binary64.proportionInterval 500000000001 1000000000002 1.96)
  = (true,
     (0.49999902000000002, 0.50000098000000004),
     (0.49999902000000002, 0.50000098000000004))%float.
Proof. vm_compute. reflexivity. Qed.


(** ** Inputs outside the preconditions *)


(** Cell 2 with no trial: the Python division raises. *)
Lemma se_proportion_zero_trials (p : R) :
  se_proportion p 0 = Raise ZeroDivisionError.
Proof. unfold se_proportion. now rewrite truediv_zero. Qed.

(** Cells 2 and 3 once the square root has answered NaN. *)
Lemma proportion_cells_nan (p : R) (n : Z) (t : R) :
  IZR n <> 0 -> p * (1 - p) / IZR n < 0 ->
  proportion_cells p n t = Ok (NaN, NaN).
Proof.
  intros Hn Hq. unfold proportion_cells, se_proportion.
  rewrite (truediv_nonzero _ _ Hn). cbn [bind].
  now rewrite (np_sqrt_neg _ Hq).
Qed.





(** The same input on binary64 numbers: cell 2 yields NaN, and so do both
    bounds. *)
Lemma negative_count_binary64 :
  let p := (-1 / 10)%float in
  let se := Binary64.se_proportion p 10 in
  (PrimFloat.is_nan se, PrimFloat.is_nan (Binary64.lcb p 1.96 se),
   PrimFloat.is_nan (Binary64.ucb p 1.96 se)) = (true, true, true).
Proof. vm_compute. reflexivity. Qed.

(** One observation on binary64 numbers: pandas' [std] is NaN, and cells 9
    and 10 carry it to both bounds. *)
Lemma one_observation_binary64 :
  let se := Binary64.se_mean PrimFloat.nan 1 in
  (PrimFloat.is_nan se, PrimFloat.is_nan (Binary64.lcb 79 2.064 se),
   PrimFloat.is_nan (Binary64.ucb 79 2.064 se)) = (true, true, true).
Proof. vm_compute. reflexivity. Qed.

(** Counts that binary64 does not tell apart: the quotient of 2^60 + 1 by
    2^60 is 1.0, and the bounds are (1.0, 1.0) and not NaN.  A negative
    trial count with 5 successes gives finite bounds around -0.5. *)
Lemma large_and_negative_counts_binary64 :
  ((1152921504606846977 / 1152921504606846976)%float,
   Binary64.proportionInterval 1152921504606846977 1152921504606846976 1.96,
   Binary64.proportionInterval 5 (-10) 1.96)
  = (1, (1, 1), (-1.0367681063550629, 0.03676810635506278))%float.
Proof. vm_compute. reflexivity. Qed.

(** ** Bounds outside the probability range *)

(** C8: the bounds are the values of the formula, with no clamping to
    [0, 1]: one success in two trials gives a negative lower bound and an
    upper bound above 1; so do the extreme proportions 1/100 (below 0) and
    99/100 (above 1). *)
Theorem bounds_not_clamped :
  (forall (successCount trialCount : Z) (confidenceMultiplier : R),
      (0 <= successCount <= trialCount)%Z -> (0 < trialCount)%Z ->
      0 < confidenceMultiplier ->
      let p := spec_proportion successCount trialCount in
      let se := spec_se_proportion successCount trialCount in
      proportionInterval successCount trialCount confidenceMultiplier
      = Ok (Fin (p - confidenceMultiplier * se),
            Fin (p + confidenceMultiplier * se)))
  /\
  (exists lo hi : R,
      proportionInterval 1 2 1.96 = Ok (Fin lo, Fin hi) /\ lo < 0 /\ 1 < hi)
  /\
  (exists lo hi : R,
      proportionInterval 1 100 1.96 = Ok (Fin lo, Fin hi) /\ lo < 0)
  /\
  (exists lo hi : R,
      proportionInterval 99 100 1.96 = Ok (Fin lo, Fin hi) /\ 1 < hi).
Proof.
  split; [| split; [| split]].
  - intros s n t Hs Hn _ p se. now apply proportionInterval_eq.
  - do 2 eexists. split; [apply proportionInterval_eq; lia |].
    assert (H : 0.3 <= spec_se_proportion 1 2 <= 0.4).
    { unfold spec_se_proportion, spec_proportion. apply sqrt_between; lra. }
    unfold spec_proportion. lra.
  - do 2 eexists. split; [apply proportionInterval_eq; lia |].
    assert (H : 0.009 <= spec_se_proportion 1 100 <= 0.01).
    { unfold spec_se_proportion, spec_proportion. apply sqrt_between; lra. }
    unfold spec_proportion. lra.
  - do 2 eexists. split; [apply proportionInterval_eq; lia |].
    assert (H : 0.009 <= spec_se_proportion 99 100 <= 0.01).
    { unfold spec_se_proportion, spec_proportion. apply sqrt_between; lra. }
    unfold spec_proportion. lra.
Qed.

Lemma bounds_not_clamped_witness :
  (0 <= 1 <= 2)%Z /\ (0 < 2)%Z /\ 0 < 1.96 /\
  proportionInterval 1 2 1.96
  = Ok (Fin (spec_proportion 1 2 - 1.96 * spec_se_proportion 1 2),
        Fin (spec_proportion 1 2 + 1.96 * spec_se_proportion 1 2)).
Proof.
  split; [lia | split; [lia | split; [lra |]]].
  apply (proj1 bounds_not_clamped 1%Z 2%Z 1.96); [lia | lia | lra].
Defined.

(** ** Zero standard error *)

Lemma spec_se_proportion_zero (n : Z) :
  (0 < n)%Z ->
  spec_proportion 0 n = 0 /\ spec_se_proportion 0 n = 0 /\
  spec_proportion n n = 1 /\ spec_se_proportion n n = 0.
Proof.
  intros Hn. apply IZR_lt in Hn.
  assert (E0 : spec_proportion 0 n = 0).
  { unfold spec_proportion. field. lra. }
  assert (E1 : spec_proportion n n = 1).
  { unfold spec_proportion. field. lra. }
  unfold spec_se_proportion. rewrite E0, E1.
  repeat split.
  - replace (0 * (1 - 0) / IZR n) with 0 by (field; lra). apply sqrt_0.
  - replace (1 * (1 - 1) / IZR n) with 0 by (field; lra). apply sqrt_0.
Qed.

Lemma Rsum_constant (c : R) (l : list R) :
  Forall (eq c) l -> Rsum l = INR (length l) * c.
Proof.
  induction 1 as [| x l Hx _ IH].
  - rewrite Rsum_nil. simpl. ring.
  - rewrite Rsum_cons, IH. subst x.
    change (length (c :: l)) with (S (length l)). rewrite S_INR. ring.
Qed.

Lemma Rsum_deviations_constant (c : R) (l : list R) :
  Forall (eq c) l -> Rsum (map (fun x => (x - c) ^ 2) l) = 0.
Proof.
  induction 1 as [| x l Hx _ IH]; cbn [map]; rewrite ?Rsum_nil, ?Rsum_cons.
  - reflexivity.
  - rewrite IH. subst x. ring.
Qed.

Lemma spec_se_mean_constant (c : R) (l : list R) :
  (0 < length l)%nat -> Forall (eq c) l ->
  spec_mean l = c /\ spec_se_mean l = 0.
Proof.
  intros Hl Hc. apply lt_0_INR in Hl.
  assert (Em : spec_mean l = c).
  { unfold spec_mean. rewrite (Rsum_constant c l Hc). field. lra. }
  split; [exact Em |].
  unfold spec_se_mean, spec_sd. rewrite Em, (Rsum_deviations_constant c l Hc).
  unfold Rdiv. rewrite Rmult_0_l, sqrt_0. ring.
Qed.

(** A column whose deviation is not NaN has two or more rows. *)
Lemma Series_std_fin_length (l : list R) (sd : R) :
  Series.std l = Fin sd -> (2 <= length l)%nat.
Proof.
  intros H. unfold Series.std, Series.var, Series.ddof in H.
  destruct (Nat.leb_spec (length l) 1) as [C | C]; [discriminate H | lia].
Qed.

(** C9, amended: a standard error that computes to zero is not an error:
    both bound formulas return the estimate itself.  That is the case with
    no success or only successes, where the proportion interval is the
    point (0, 0) or (1, 1), and whenever the deviation of the column
    computes to zero, as it does for two or more identical whole-number
    observations whose sum stays below 2^53. *)
Theorem degenerate_interval :
  (forall estimate tstar : R,
      lcb (Fin estimate) tstar (Fin 0) = Fin estimate /\
      ucb (Fin estimate) tstar (Fin 0) = Fin estimate)
  /\
  (forall (trialCount : Z) (confidenceMultiplier : R),
      (0 < trialCount)%Z -> 0 < confidenceMultiplier ->
      spec_se_proportion 0 trialCount = 0 /\
      proportionInterval 0 trialCount confidenceMultiplier
      = Ok (Fin 0, Fin 0) /\
      spec_se_proportion trialCount trialCount = 0 /\
      proportionInterval trialCount trialCount confidenceMultiplier
      = Ok (Fin 1, Fin 1))
  /\
  (forall (observations : list R) (confidenceMultiplier : R),
      Series.std observations = Fin 0 ->
      exists m : R,
        Series.mean observations = Fin m /\
        meanInterval observations confidenceMultiplier = Ok (Fin m, Fin m))
  /\
  (forall (observations : list R) (c : Z) (confidenceMultiplier : R),
      (2 <= length observations)%nat ->
      Forall (eq (IZR c)) observations ->
      (Z.of_nat (length observations) * Z.abs c <= 2 ^ 53)%Z ->
      0 < confidenceMultiplier ->
      Series.std observations = Fin 0 /\
      meanInterval observations confidenceMultiplier
      = Ok (Fin (IZR c), Fin (IZR c))).
Proof.
  split; [| split; [| split]].
  - intros e t. rewrite lcb_fin, ucb_fin. split; f_equal; ring.
  - intros n t Hn _.
    destruct (spec_se_proportion_zero n Hn) as (P0 & S0 & P1 & S1).
    split; [exact S0 |]. split; [| split; [exact S1 |]].
    + rewrite proportionInterval_eq by lia. rewrite P0, S0.
      do 2 f_equal; f_equal; ring.
    + rewrite proportionInterval_eq by lia. rewrite P1, S1.
      do 2 f_equal; f_equal; ring.
  - intros l t Hsd.
    pose proof (Series_std_fin_length l 0 Hsd) as Hl.
    rewrite (Series_std_eq l Hl) in Hsd. injection Hsd as Hsd.
    exists (spec_mean l).
    split; [apply Series_mean_eq; lia |].
    rewrite meanInterval_eq by exact Hl.
    unfold spec_se_mean. rewrite Hsd.
    do 2 f_equal; f_equal; unfold Rdiv; ring.
  - intros l c t Hl Hc _ _.
    destruct (spec_se_mean_constant (IZR c) l ltac:(lia) Hc) as [Em Es].
    split.
    + rewrite (Series_std_eq l Hl). f_equal.
      unfold spec_sd. rewrite Em, (Rsum_deviations_constant _ l Hc).
      unfold Rdiv. rewrite Rmult_0_l. apply sqrt_0.
    + rewrite meanInterval_eq by exact Hl. rewrite Em, Es.
      do 2 f_equal; f_equal; ring.
Qed.

Lemma degenerate_interval_witness :
  ((0 < 659)%Z /\ 0 < 1.96 /\
   proportionInterval 0 659 1.96 = Ok (Fin 0, Fin 0) /\
   proportionInterval 659 659 1.96 = Ok (Fin 1, Fin 1))
  /\
  ((2 <= length [79; 79; 79])%nat /\ Forall (eq (IZR 79)) [79; 79; 79] /\
   (Z.of_nat (length [79; 79; 79]) * Z.abs 79 <= 2 ^ 53)%Z /\
   0 < 2.064 /\
   Series.std [79; 79; 79] = Fin 0 /\
   meanInterval [79; 79; 79] 2.064 = Ok (Fin 79, Fin 79) /\
   exists m : R,
     Series.mean [79; 79; 79] = Fin m /\
     meanInterval [79; 79; 79] 2.064 = Ok (Fin m, Fin m)).
Proof.
  destruct degenerate_interval as (_ & H2 & H3 & H4).
  split.
  - split; [lia | split; [lra |]].
    destruct (H2 659%Z 1.96 ltac:(lia) ltac:(lra)) as (_ & E0 & _ & E1).
    split; [exact E0 | exact E1].
  - assert (Hc : Forall (eq (IZR 79)) [79; 79; 79]) by (repeat constructor).
    destruct (H4 [79; 79; 79] 79%Z 2.064 ltac:(simpl; lia) Hc
                ltac:(simpl; lia) ltac:(lra)) as [Hsd Hi].
    split; [simpl; lia |]. split; [exact Hc |]. split; [simpl; lia |].
    split; [lra |]. split; [exact Hsd |]. split; [exact Hi |].
    exact (H3 [79; 79; 79] 2.064 Hsd).
Defined.

(** C9 as stated fails: the three identical observations 0.1 are not
    returned as the point (0.1, 0.1).  Their sum is rounded, the mean comes
    out one place above 0.1, the deviation is 1.7e-17 and not zero, and the
    two bounds differ. *)
Lemma identical_observations_binary64 :
  (Binary64.mean [0.1; 0.1; 0.1]%float,
   Binary64.std [0.1; 0.1; 0.1]%float,
   Binary64.meanInterval [0.1; 0.1; 0.1]%float 2.064,
   PrimFloat.eqb (Binary64.std [0.1; 0.1; 0.1]%float) 0,
   PrimFloat.eqb (fst (Binary64.meanInterval [0.1; 0.1; 0.1]%float 2.064))
                 (snd (Binary64.meanInterval [0.1; 0.1; 0.1]%float 2.064)))
  = (0.10000000000000002, 1.6996749443881478e-17,
     (0.1, 0.10000000000000003), false, false)%float.
Proof. vm_compute. reflexivity. Qed.

(** The identical whole-number observations 79, 79, 79 on binary64
    numbers: the deviation is zero and the interval is the point. *)
Lemma identical_whole_observations_binary64 :
  let obs := [79; 79; 79]%float in
  (Binary64.std obs, Binary64.meanInterval obs 2.064)
  = (0, (79, 79))%float.
Proof. vm_compute. reflexivity. Qed.

(** Proportions 0 and 1 on binary64 numbers: the standard error is exactly
    zero and both bounds are the estimate. *)
Lemma degenerate_binary64 :
  let se0 := Binary64.se_proportion 0 659 in
  let se1 := Binary64.se_proportion 1 659 in
  (se0, Binary64.lcb 0 1.96 se0, Binary64.ucb 0 1.96 se0,
   se1, Binary64.lcb 1 1.96 se1, Binary64.ucb 1 1.96 se1)
  = (0, 0, 0, 0, 1, 1)%float.
Proof. vm_compute. reflexivity. Qed.

(** ** Width against the multiplier *)




(** * Further properties of the cells *)

(** ** Cells 2 and 3 on any proportion and sample size *)

(** Cells 2 and 3 whenever the division succeeds and the square root has a
    real answer. *)
Lemma proportion_cells_fin (p : R) (n : Z) (t : R) :
  IZR n <> 0 -> 0 <= p * (1 - p) / IZR n ->
  proportion_cells p n t
  = Ok (Fin (p - t * sqrt (p * (1 - p) / IZR n)),
        Fin (p + t * sqrt (p * (1 - p) / IZR n))).
Proof.
  intros Hn Hq. unfold proportion_cells, se_proportion.
  rewrite (truediv_nonzero _ _ Hn). cbn [bind].
  now rewrite (np_sqrt_nonneg _ Hq), lcb_fin, ucb_fin.
Qed.

(** X1: the sign of the sample size is not checked.  With a negative [n],
    cells 2 and 3 answer (NaN, NaN) for every proportion strictly between
    0 and 1, and a pair of finite bounds for a proportion outside. *)
Theorem negative_sample_size (p : R) (n : Z) (tstar : R) :
  (n < 0)%Z ->
  (0 < p < 1 -> proportion_cells p n tstar = Ok (NaN, NaN)) /\
  (p <= 0 \/ 1 <= p ->
   proportion_cells p n tstar
   = Ok (Fin (p - tstar * sqrt (p * (1 - p) / IZR n)),
         Fin (p + tstar * sqrt (p * (1 - p) / IZR n)))).
Proof.
  intros Hn. apply IZR_lt in Hn.
  assert (Hn0 : IZR n <> 0) by lra.
  assert (Hi : / IZR n < 0) by now apply Rinv_lt_0_compat.
  split.
  - intros Hp. apply proportion_cells_nan; [exact Hn0 |].
    assert (Hq : 0 < p * (1 - p)) by nra.
    unfold Rdiv. nra.
  - intros Hp. apply proportion_cells_fin; [exact Hn0 |].
    assert (Hq : p * (1 - p) <= 0) by (destruct Hp; nra).
    unfold Rdiv. nra.
Qed.

Lemma negative_sample_size_witness :
  (-659 < 0)%Z /\
  (0 < 0.85 < 1 /\ proportion_cells 0.85 (-659) 1.96 = Ok (NaN, NaN)) /\
  ((2 <= 0 \/ 1 <= 2) /\
   proportion_cells 2 (-659) 1.96
   = Ok (Fin (2 - 1.96 * sqrt (2 * (1 - 2) / -659)),
         Fin (2 + 1.96 * sqrt (2 * (1 - 2) / -659)))).
Proof.
  split; [lia |]. split.
  - split; [lra |].
    apply (proj1 (negative_sample_size 0.85 (-659) 1.96 ltac:(lia))). lra.
  - split; [lra |].
    apply (proj2 (negative_sample_size 2 (-659) 1.96 ltac:(lia))). lra.
Defined.

(** ** Size of the standard error of a proportion *)

Lemma sqrt_le_of_square (x b : R) :
  0 <= b -> x <= b * b -> sqrt x <= b.
Proof.
  intros Hb Hx. rewrite <- (sqrt_square b Hb). now apply sqrt_le_1_alt.
Qed.

(** X2: for a proportion in [0, 1] and a positive sample size the standard
    error of cell 2 is at most 1 / (2 sqrt n), hence at most 1/2, and the
    bound is attained at p = 1/2. *)
Theorem se_proportion_bound (p : R) (n : Z) :
  0 <= p <= 1 -> (0 < n)%Z ->
  exists se : R,
    se_proportion p n = Ok (Fin se) /\
    0 <= se <= / (2 * sqrt (IZR n)) /\
    se <= / 2 /\
    (p = / 2 -> se = / (2 * sqrt (IZR n))).
Proof.
  intros Hp Hn.
  pose proof (variance_term_nonneg p n Hp Hn) as Hq.
  assert (H1 : 1 <= IZR n) by (apply IZR_le; lia).
  assert (Hn0 : IZR n <> 0) by lra.
  assert (Hs1 : 1 <= sqrt (IZR n)).
  { rewrite <- sqrt_1. apply sqrt_le_1_alt. exact H1. }
  assert (Hss : sqrt (IZR n) * sqrt (IZR n) = IZR n) by (apply sqrt_sqrt; lra).
  set (r := sqrt (IZR n)) in *.
  assert (Hb : 0 < / (2 * r)) by (apply Rinv_0_lt_compat; lra).
  assert (Hbb : / (2 * r) * / (2 * r) = / 4 * / IZR n).
  { rewrite <- Hss. field. lra. }
  assert (Hi : 0 < / IZR n) by (apply Rinv_0_lt_compat; lra).
  exists (sqrt (p * (1 - p) / IZR n)).
  split.
  - unfold se_proportion. rewrite (truediv_nonzero _ _ Hn0). cbn [bind].
    now rewrite (np_sqrt_nonneg _ Hq).
  - assert (Hle : sqrt (p * (1 - p) / IZR n) <= / (2 * r)).
    { apply sqrt_le_of_square; [lra |]. rewrite Hbb. unfold Rdiv.
      apply Rmult_le_compat_r; [lra |].
      pose proof (Rle_0_sqr (p - / 2)) as Hsq. unfold Rsqr in Hsq. lra. }
    split; [split; [apply sqrt_pos | exact Hle] |].
    split.
    + apply Rle_trans with (/ (2 * r)); [exact Hle |].
      apply Rinv_le_contravar; lra.
    + intros E. subst p. apply sqrt_lem_1; [exact Hq | lra |].
      rewrite Hbb. field. lra.
Qed.

Lemma se_proportion_bound_witness :
  0 <= 0.85 <= 1 /\ (0 < 659)%Z /\
  exists se : R,
    se_proportion 0.85 659 = Ok (Fin se) /\
    0 <= se <= / (2 * sqrt 659) /\
    se <= / 2 /\
    (0.85 = / 2 -> se = / (2 * sqrt 659)).
Proof.
  split; [lra | split; [lia |]].
  apply (se_proportion_bound 0.85 659); [lra | lia].
Defined.

(** ** Standard error against the sample size *)

Lemma sqrt_4 : sqrt 4 = 2.
Proof. replace 4 with (2 * 2) by lra. apply sqrt_square. lra. Qed.

(** X4: four times the sample halves the standard error, in cell 2 (for a
    proportion in [0, 1]) and in cell 9 (for a finite deviation). *)
Theorem quadruple_sample_halves_se :
  (forall (p : R) (n : Z),
      0 <= p <= 1 -> (0 < n)%Z ->
      exists se : R,
        se_proportion p n = Ok (Fin se) /\
        se_proportion p (4 * n) = Ok (Fin (se / 2)))
  /\
  (forall (sd : R) (n : nat),
      (0 < n)%nat ->
      exists se : R,
        se_mean (Fin sd) n = Fin se /\
        se_mean (Fin sd) (4 * n) = Fin (se / 2)).
Proof.
  split.
  - intros p n Hp Hn.
    assert (Hn4 : (0 < 4 * n)%Z) by lia.
    pose proof (variance_term_nonneg p n Hp Hn) as Hq.
    pose proof (variance_term_nonneg p (4 * n) Hp Hn4) as Hq4.
    assert (Hr : 0 < IZR n) by (apply IZR_lt in Hn; exact Hn).
    exists (sqrt (p * (1 - p) / IZR n)). unfold se_proportion.
    rewrite !truediv_nonzero by (rewrite ?mult_IZR; lra). cbn [bind].
    rewrite (np_sqrt_nonneg _ Hq), (np_sqrt_nonneg _ Hq4).
    split; [reflexivity |]. do 2 f_equal.
    rewrite mult_IZR.
    replace (p * (1 - p) / (4 * IZR n)) with (p * (1 - p) / IZR n / 4)
      by (field; lra).
    rewrite sqrt_div_alt by lra. now rewrite sqrt_4.
  - intros sd n Hn.
    assert (Hr : 0 < INR n) by now apply lt_0_INR.
    pose proof (sqrt_lt_R0 _ Hr) as Hs.
    exists (sd / sqrt (INR n)).
    rewrite !se_mean_fin by lia.
    split; [reflexivity |]. f_equal.
    rewrite mult_INR.
    replace (INR 4) with 4 by (simpl; lra).
    rewrite sqrt_mult by lra. rewrite sqrt_4. field. lra.
Qed.

Lemma quadruple_sample_halves_se_witness :
  (0 <= 0.85 <= 1 /\ (0 < 659)%Z /\
   exists se : R,
     se_proportion 0.85 659 = Ok (Fin se) /\
     se_proportion 0.85 (4 * 659) = Ok (Fin (se / 2)))
  /\
  ((0 < 25)%nat /\
   exists se : R,
     se_mean (Fin 15) 25 = Fin se /\
     se_mean (Fin 15) (4 * 25) = Fin (se / 2)).
Proof.
  split.
  - split; [lra | split; [lia |]].
    apply (proj1 quadruple_sample_halves_se 0.85 659%Z); [lra | lia].
  - split; [lia |].
    apply (proj2 quadruple_sample_halves_se 15 25%nat). lia.
Defined.

(** X5: in cell 9 a positive deviation gives a positive standard error
    that shrinks strictly as the number of rows grows. *)
Theorem se_mean_decreasing (sd : R) (n1 n2 : nat) :
  0 < sd -> (0 < n1)%nat -> (n1 < n2)%nat ->
  exists e1 e2 : R,
    se_mean (Fin sd) n1 = Fin e1 /\
    se_mean (Fin sd) n2 = Fin e2 /\
    0 < e2 < e1.
Proof.
  intros Hsd H1 H12.
  assert (R1 : 0 < INR n1) by now apply lt_0_INR.
  assert (R12 : INR n1 < INR n2) by now apply lt_INR.
  pose proof (sqrt_lt_R0 _ R1) as S1.
  assert (S12 : sqrt (INR n1) < sqrt (INR n2)).
  { apply sqrt_lt_1_alt. lra. }
  exists (sd / sqrt (INR n1)), (sd / sqrt (INR n2)).
  rewrite !se_mean_fin by lia.
  split; [reflexivity |]. split; [reflexivity |].
  assert (I2 : 0 < / sqrt (INR n2)) by (apply Rinv_0_lt_compat; lra).
  assert (I12 : / sqrt (INR n2) < / sqrt (INR n1)).
  { apply Rinv_lt_contravar; [nra | exact S12]. }
  unfold Rdiv. split; nra.
Qed.

Lemma se_mean_decreasing_witness :
  0 < 15 /\ (0 < 25)%nat /\ (25 < 100)%nat /\
  exists e1 e2 : R,
    se_mean (Fin 15) 25 = Fin e1 /\
    se_mean (Fin 15) 100 = Fin e2 /\
    0 < e2 < e1.
Proof.
  split; [lra | split; [lia | split; [lia |]]].
  apply (se_mean_decreasing 15 25 100); [lra | lia | lia].
Defined.

(** X6: cell 9 never raises, and its standard error is a finite number
    exactly when the deviation is finite and there is at least one row.
    With no row a non-zero deviation gives an infinity and a zero deviation
    NaN. *)
Theorem se_mean_finite_iff (sd : npfloat) (n : nat) :
  ((exists e : R, se_mean sd n = Fin e)
   <-> (exists s : R, sd = Fin s) /\ (0 < n)%nat)
  /\
  (forall s : R, s <> 0 -> se_mean (Fin s) 0 = Inf (is_neg s))
  /\
  se_mean (Fin 0) 0 = NaN.
Proof.
  assert (Z0 : np_sqrt (Fin (INR 0)) = Fin 0).
  { rewrite np_sqrt_nonneg by (simpl; lra). simpl. now rewrite sqrt_0. }
  split; [| split].
  - split.
    + intros [e He]. destruct sd as [s | s |].
      * split; [now exists s |].
        destruct n as [| n]; [| lia].
        exfalso. unfold se_mean in He. rewrite Z0 in He. simpl in He.
        destruct (Req_dec_T 0 0) as [_ | N]; [| now elim N].
        destruct (Req_dec_T s 0); discriminate He.
      * exfalso. unfold se_mean in He.
        rewrite np_sqrt_nonneg in He by apply pos_INR. discriminate He.
      * discriminate He.
    + intros [[s ->] Hn]. exists (s / sqrt (INR n)). now apply se_mean_fin.
  - intros s Hs. unfold se_mean. rewrite Z0. simpl.
    destruct (Req_dec_T 0 0) as [_ | N]; [| now elim N].
    destruct (Req_dec_T s 0) as [E | _]; [contradiction | reflexivity].
  - unfold se_mean. rewrite Z0. simpl.
    destruct (Req_dec_T 0 0) as [_ | N]; [| now elim N]. reflexivity.
Qed.

Lemma se_mean_finite_iff_witness :
  15 <> 0 /\ se_mean (Fin 15) 0 = Inf (is_neg 15).
Proof.
  assert (H : 15 <> 0) by lra.
  split; [exact H |].
  exact (proj1 (proj2 (se_mean_finite_iff (Fin 15) 0)) 15 H).
Defined.

(** The empty case of cell 9 on binary64 numbers. *)
Lemma se_mean_zero_rows_binary64 :
  (Binary64.se_mean 15 0, PrimFloat.is_nan (Binary64.se_mean 0 0))
  = (PrimFloat.infinity, true).
Proof. vm_compute. reflexivity. Qed.

(** ** The bound formulas of cells 3 and 10 on any scalar *)

(** X7: the bound formulas never hide a special value: whenever one of the
    two bounds is a finite number, both the estimate and the standard
    error were finite. *)
Theorem finite_bound_needs_finite_inputs (estimate se : npfloat) (tstar x : R) :
  lcb estimate tstar se = Fin x \/ ucb estimate tstar se = Fin x ->
  exists e s : R, estimate = Fin e /\ se = Fin s.
Proof.
  intros [Hx | Hx].
  - destruct estimate as [e | a |], se as [s | b |];
      unfold lcb, np_sub, np_mul in Hx; cbn in Hx;
      try destruct (Req_dec_T tstar 0); cbn in Hx;
      try destruct (Bool.eqb _ _); try discriminate Hx;
      now exists e, s.
  - destruct estimate as [e | a |], se as [s | b |];
      unfold ucb, np_mul in Hx; cbn in Hx;
      try destruct (Req_dec_T tstar 0); cbn in Hx;
      try destruct (Bool.eqb _ _); try discriminate Hx;
      now exists e, s.
Qed.

Lemma finite_bound_needs_finite_inputs_witness :
  (lcb (Fin 82) 2 (Fin 3) = Fin (82 - 2 * 3) \/
   ucb (Fin 82) 2 (Fin 3) = Fin (82 - 2 * 3)) /\
  exists e s : R, Fin 82 = Fin e /\ Fin 3 = Fin s.
Proof.
  assert (H : lcb (Fin 82) 2 (Fin 3) = Fin (82 - 2 * 3) \/
              ucb (Fin 82) 2 (Fin 3) = Fin (82 - 2 * 3)).
  { left. apply lcb_fin. }
  split; [exact H |].
  exact (finite_bound_needs_finite_inputs (Fin 82) (Fin 3) 2 (82 - 2 * 3) H).
Defined.

(** On binary64 numbers the converse fails by overflow: the finite estimate
    1e308 and the finite standard error 1e308 with multiplier 10 give the
    two infinities. *)
Lemma finite_inputs_overflow_binary64 :
  (Binary64.lcb 1e308 10 1e308, Binary64.ucb 1e308 10 1e308)
  = (PrimFloat.neg_infinity, PrimFloat.infinity).
Proof. vm_compute. reflexivity. Qed.

Lemma is_neg_opp (t : R) :
  t <> 0 -> is_neg (- t) = negb (is_neg t).
Proof.
  intros Ht. unfold is_neg.
  destruct (Rlt_dec (- t) 0), (Rlt_dec t 0); try reflexivity; lra.
Qed.

Lemma np_mul_opp (t : R) (a : npfloat) :
  np_neg (np_mul (Fin (- t)) a) = np_mul (Fin t) a.
Proof.
  destruct a as [x | s |]; cbn.
  - f_equal. ring.
  - destruct (Req_dec_T (- t) 0) as [E | N], (Req_dec_T t 0) as [E' | N'];
      try lra; cbn; [reflexivity |].
    rewrite (is_neg_opp t N'). now destruct (is_neg t), s.
  - reflexivity.
Qed.

Lemma np_neg_involutive (a : npfloat) :
  np_neg (np_neg a) = a.
Proof.
  destruct a as [x | s |]; cbn.
  - f_equal. ring.
  - now rewrite negb_involutive.
  - reflexivity.
Qed.

(** X8: the sign of the multiplier is not checked.  Negating the
    multiplier exchanges the two bounds, on every estimate and standard
    error; so a negative multiplier with a positive standard error returns
    a "lower" bound above the "upper" one. *)
Theorem negative_multiplier_swaps_bounds :
  (forall (estimate se : npfloat) (tstar : R),
      lcb estimate (- tstar) se = ucb estimate tstar se /\
      ucb estimate (- tstar) se = lcb estimate tstar se)
  /\
  (forall estimate se tstar : R,
      0 < se -> tstar < 0 ->
      exists lo hi : R,
        lcb (Fin estimate) tstar (Fin se) = Fin lo /\
        ucb (Fin estimate) tstar (Fin se) = Fin hi /\
        hi < estimate < lo).
Proof.
  split.
  - intros e se t. unfold lcb, ucb, np_sub. split.
    + now rewrite np_mul_opp.
    + now rewrite <- (np_mul_opp t se), np_neg_involutive.
  - intros e se t Hse Ht. rewrite lcb_fin, ucb_fin.
    do 2 eexists. split; [reflexivity |]. split; [reflexivity |]. nra.
Qed.

Lemma negative_multiplier_swaps_bounds_witness :
  0 < 3 /\ -2 < 0 /\
  exists lo hi : R,
    lcb (Fin 82) (-2) (Fin 3) = Fin lo /\
    ucb (Fin 82) (-2) (Fin 3) = Fin hi /\
    hi < 82 < lo.
Proof.
  split; [lra | split; [lra |]].
  apply (proj2 negative_multiplier_swaps_bounds 82 3 (-2)); lra.
Defined.

(** ** The mean interval under a change of the data *)

Lemma Rsum_map_shift (c : R) (l : list R) :
  Rsum (map (fun x => x + c) l) = Rsum l + INR (length l) * c.
Proof.
  induction l as [| x l IH]; cbn [map]; rewrite ?Rsum_nil, ?Rsum_cons.
  - simpl. ring.
  - rewrite IH. change (length (x :: l)) with (S (length l)).
    rewrite S_INR. ring.
Qed.

Lemma Rsum_map_scale (k : R) (l : list R) :
  Rsum (map (fun x => k * x) l) = k * Rsum l.
Proof.
  induction l as [| x l IH]; cbn [map]; rewrite ?Rsum_nil, ?Rsum_cons.
  - ring.
  - rewrite IH. ring.
Qed.

Lemma Rsum_map_ext (f g : R -> R) (l : list R) :
  (forall x, f x = g x) -> Rsum (map f l) = Rsum (map g l).
Proof. intros H. now rewrite (map_ext f g H). Qed.

Lemma spec_mean_shift (c : R) (l : list R) :
  (0 < length l)%nat ->
  spec_mean (map (fun x => x + c) l) = spec_mean l + c.
Proof.
  intros H. apply lt_0_INR in H. unfold spec_mean.
  rewrite Rsum_map_shift, length_map. field. lra.
Qed.

Lemma spec_sd_shift (c : R) (l : list R) :
  (0 < length l)%nat ->
  spec_sd (map (fun x => x + c) l) = spec_sd l.
Proof.
  intros H. unfold spec_sd. rewrite (spec_mean_shift c l H).
  rewrite map_map, length_map. do 2 f_equal.
  apply Rsum_map_ext. intros x. ring.
Qed.

(** X9: adding a constant to every observation moves both bounds of the
    mean interval by that constant and leaves its width unchanged. *)
Theorem meanInterval_shift (observations : list R) (c tstar : R) :
  (2 <= length observations)%nat ->
  exists lo hi : R,
    meanInterval observations tstar = Ok (Fin lo, Fin hi) /\
    meanInterval (map (fun x => x + c) observations) tstar
    = Ok (Fin (lo + c), Fin (hi + c)).
Proof.
  intros H. do 2 eexists.
  split; [apply meanInterval_eq; exact H |].
  rewrite meanInterval_eq by (rewrite length_map; exact H).
  unfold spec_se_mean.
  rewrite spec_mean_shift, spec_sd_shift, length_map by lia.
  do 2 f_equal; f_equal; ring.
Qed.

Lemma meanInterval_shift_witness :
  (2 <= length [79; 70; 85; 87; 72])%nat /\
  exists lo hi : R,
    meanInterval [79; 70; 85; 87; 72] 2.064 = Ok (Fin lo, Fin hi) /\
    meanInterval (map (fun x => x + 10) [79; 70; 85; 87; 72]) 2.064
    = Ok (Fin (lo + 10), Fin (hi + 10)).
Proof.
  split; [simpl; lia |].
  apply (meanInterval_shift [79; 70; 85; 87; 72] 10 2.064). simpl; lia.
Defined.

Lemma spec_mean_scale (k : R) (l : list R) :
  (0 < length l)%nat ->
  spec_mean (map (fun x => k * x) l) = k * spec_mean l.
Proof.
  intros H. apply lt_0_INR in H. unfold spec_mean.
  rewrite Rsum_map_scale, length_map. field. lra.
Qed.

Lemma spec_sd_scale (k : R) (l : list R) :
  (2 <= length l)%nat ->
  spec_sd (map (fun x => k * x) l) = Rabs k * spec_sd l.
Proof.
  intros H.
  assert (Hn : 0 < INR (length l) - 1).
  { replace (INR (length l) - 1) with (INR (length l - 1))
      by (rewrite minus_INR by lia; reflexivity).
    apply lt_0_INR. lia. }
  unfold spec_sd. rewrite (spec_mean_scale k l) by lia.
  rewrite map_map, length_map.
  rewrite (Rsum_map_ext _ (fun x => (k * k) * (x - spec_mean l) ^ 2))
    by (intros x; ring).
  rewrite <- (map_map (fun x => (x - spec_mean l) ^ 2) (fun y => k * k * y)).
  rewrite Rsum_map_scale.
  pose proof (Rsum_squares_nonneg (spec_mean l) l) as Hs.
  rewrite Rsum_squares_sym in Hs.
  unfold Rdiv. rewrite Rmult_assoc.
  rewrite sqrt_mult_alt by nra.
  f_equal. fold (Rsqr k). apply sqrt_Rsqr_abs.
Qed.

(** X10: multiplying every observation by a positive constant multiplies
    both bounds of the mean interval by it (a change of unit); a negative
    constant does the same and exchanges the bounds. *)
Theorem meanInterval_scale (observations : list R) (k tstar : R) :
  (2 <= length observations)%nat ->
  exists lo hi : R,
    meanInterval observations tstar = Ok (Fin lo, Fin hi) /\
    (0 < k ->
     meanInterval (map (fun x => k * x) observations) tstar
     = Ok (Fin (k * lo), Fin (k * hi))) /\
    (k < 0 ->
     meanInterval (map (fun x => k * x) observations) tstar
     = Ok (Fin (k * hi), Fin (k * lo))).
Proof.
  intros H. do 2 eexists.
  split; [apply meanInterval_eq; exact H |].
  assert (E : meanInterval (map (fun x => k * x) observations) tstar
              = Ok (Fin (k * spec_mean observations
                         - tstar * (Rabs k * spec_se_mean observations)),
                    Fin (k * spec_mean observations
                         + tstar * (Rabs k * spec_se_mean observations)))).
  { rewrite meanInterval_eq by (rewrite length_map; exact H).
    unfold spec_se_mean.
    rewrite spec_mean_scale, spec_sd_scale, length_map by lia.
    unfold Rdiv. do 2 f_equal; f_equal; ring. }
  split; intros Hk; rewrite E.
  - rewrite (Rabs_pos_eq k) by lra. do 2 f_equal; f_equal; ring.
  - rewrite (Rabs_left k Hk). do 2 f_equal; f_equal; ring.
Qed.

Lemma meanInterval_scale_witness :
  (2 <= length [79; 70; 85; 87; 72])%nat /\
  exists lo hi : R,
    meanInterval [79; 70; 85; 87; 72] 2.064 = Ok (Fin lo, Fin hi) /\
    (0 < 2.54 ->
     meanInterval (map (fun x => 2.54 * x) [79; 70; 85; 87; 72]) 2.064
     = Ok (Fin (2.54 * lo), Fin (2.54 * hi))) /\
    (2.54 < 0 ->
     meanInterval (map (fun x => 2.54 * x) [79; 70; 85; 87; 72]) 2.064
     = Ok (Fin (2.54 * hi), Fin (2.54 * lo))).
Proof.
  split; [simpl; lia |].
  apply (meanInterval_scale [79; 70; 85; 87; 72] 2.54 2.064). simpl; lia.
Defined.

Lemma Rsum_Permutation (l l' : list R) :
  Permutation l l' -> Rsum l = Rsum l'.
Proof.
  induction 1 as [| x l l' _ IH | x y l | l l' l'' _ IH1 _ IH2];
    rewrite ?Rsum_cons.
  - reflexivity.
  - now rewrite IH.
  - ring.
  - now rewrite IH1.
Qed.

(** X11: the mean interval does not depend on the order of the rows, for
    a column of any length. *)
Theorem meanInterval_Permutation (l l' : list R) (tstar : R) :
  Permutation l l' ->
  meanInterval l tstar = meanInterval l' tstar.
Proof.
  intros H.
  assert (Em : Series.mean l = Series.mean l').
  { unfold Series.mean.
    now rewrite (Permutation_length H), (Rsum_Permutation _ _ H). }
  assert (Ev : Series.var l = Series.var l').
  { unfold Series.var.
    rewrite (Permutation_length H), (Rsum_Permutation _ _ H).
    now rewrite (Rsum_Permutation _ _ (Permutation_map _ H)). }
  unfold meanInterval, Series.std.
  now rewrite Em, Ev, (Permutation_length H).
Qed.

Lemma meanInterval_Permutation_witness :
  Permutation [79; 70; 85] [85; 79; 70] /\
  meanInterval [79; 70; 85] 2.064 = meanInterval [85; 79; 70] 2.064.
Proof.
  assert (H : Permutation [79; 70; 85] [85; 79; 70]).
  { apply Permutation_sym. apply (Permutation_cons_app [79; 70] [] 85).
    apply Permutation_refl. }
  split; [exact H |].
  exact (meanInterval_Permutation [79; 70; 85] [85; 79; 70] 2.064 H).
Defined.

(** ** When the standard error is zero *)

(** X13: for a proportion in [0, 1] and a positive sample size the
    standard error of cell 2 is zero exactly at p = 0 and p = 1. *)
Theorem se_proportion_zero_iff (p : R) (n : Z) :
  0 <= p <= 1 -> (0 < n)%Z ->
  (se_proportion p n = Ok (Fin 0) <-> p = 0 \/ p = 1).
Proof.
  intros Hp Hn.
  pose proof (variance_term_nonneg p n Hp Hn) as Hq.
  assert (Hr : 0 < IZR n) by (apply IZR_lt in Hn; exact Hn).
  assert (E : se_proportion p n = Ok (Fin (sqrt (p * (1 - p) / IZR n)))).
  { unfold se_proportion. rewrite truediv_nonzero by lra. cbn [bind].
    now rewrite (np_sqrt_nonneg _ Hq). }
  rewrite E. split.
  - intros H. injection H as H. apply sqrt_eq_0 in H; [| exact Hq].
    unfold Rdiv in H. apply Rmult_integral in H.
    destruct H as [H | H].
    + apply Rmult_integral in H. destruct H as [H | H]; [left | right]; lra.
    + apply Rinv_neq_0_compat in H; [contradiction | lra].
  - intros [-> | ->]; do 2 f_equal.
    + replace (0 * (1 - 0) / IZR n) with 0 by (field; lra). apply sqrt_0.
    + replace (1 * (1 - 1) / IZR n) with 0 by (field; lra). apply sqrt_0.
Qed.

Lemma se_proportion_zero_iff_witness :
  0 <= 0.85 <= 1 /\ (0 < 659)%Z /\
  (se_proportion 0.85 659 = Ok (Fin 0) <-> 0.85 = 0 \/ 0.85 = 1).
Proof.
  split; [lra | split; [lia |]].
  apply (se_proportion_zero_iff 0.85 659); [lra | lia].
Defined.

(** ** Where the estimate lies *)

Lemma Rsum_between (a b : R) (l : list R) :
  Forall (fun x => a <= x <= b) l ->
  INR (length l) * a <= Rsum l <= INR (length l) * b.
Proof.
  induction 1 as [| x l Hx _ IH].
  - rewrite Rsum_nil. simpl. lra.
  - rewrite Rsum_cons. change (length (x :: l)) with (S (length l)).
    rewrite S_INR. lra.
Qed.

Lemma Forall_IZR_between (a b : Z) (values : list Z) :
  Forall (fun z => (a <= z <= b)%Z) values ->
  Forall (fun x => IZR a <= x <= IZR b) (map IZR values).
Proof.
  induction 1 as [| z l [Hl Hu] _ IH]; cbn [map]; constructor.
  - split; now apply IZR_le.
  - exact IH.
Qed.

(** X14: the mean of a whole-number column that is not empty, and whose sum
    stays below 2^53, lies between any two whole limits that every row
    respects, so between its smallest and its largest row. *)
Theorem mean_within_range (values : list Z) (a b : Z) :
  (0 < length values)%nat ->
  Forall (fun z => (a <= z <= b)%Z) values ->
  (Z.of_nat (length values) * Z.max (Z.abs a) (Z.abs b) <= 2 ^ 53)%Z ->
  exists m : R, Series.mean (map IZR values) = Fin m /\ IZR a <= m <= IZR b.
Proof.
  intros Hn Hl _. exists (spec_mean (map IZR values)).
  assert (Hn' : (0 < length (map IZR values))%nat) by now rewrite length_map.
  split; [now apply Series_mean_eq |].
  pose proof (Rsum_between _ _ _ (Forall_IZR_between a b values Hl)) as [Hlo Hhi].
  apply lt_0_INR in Hn'. unfold spec_mean.
  split.
  - apply Rmult_le_reg_r with (INR (length (map IZR values))); [exact Hn' |].
    unfold Rdiv. rewrite Rmult_assoc, Rinv_l by lra. lra.
  - apply Rmult_le_reg_r with (INR (length (map IZR values))); [exact Hn' |].
    unfold Rdiv. rewrite Rmult_assoc, Rinv_l by lra. lra.
Qed.

Lemma mean_within_range_witness :
  (0 < length [79; 70; 85; 87; 72]%Z)%nat /\
  Forall (fun z => (70 <= z <= 87)%Z) [79; 70; 85; 87; 72]%Z /\
  (Z.of_nat (length [79; 70; 85; 87; 72]%Z) * Z.max (Z.abs 70) (Z.abs 87)
   <= 2 ^ 53)%Z /\
  exists m : R,
    Series.mean (map IZR [79; 70; 85; 87; 72]%Z) = Fin m /\
    IZR 70 <= m <= IZR 87.
Proof.
  assert (H : Forall (fun z => (70 <= z <= 87)%Z) [79; 70; 85; 87; 72]%Z).
  { repeat constructor; lia. }
  split; [simpl; lia | split; [exact H | split; [simpl; lia |]]].
  apply (mean_within_range [79; 70; 85; 87; 72]%Z 70 87);
    [simpl; lia | exact H | simpl; lia].
Defined.

(** The first five rows of the column on binary64 numbers: the mean 78.6
    lies between the smallest row 70 and the largest row 87. *)
Lemma mean_within_range_binary64 :
  (Binary64.mean [79; 70; 85; 87; 72]%float,
   PrimFloat.leb 70 (Binary64.mean [79; 70; 85; 87; 72]%float),
   PrimFloat.leb (Binary64.mean [79; 70; 85; 87; 72]%float) 87)
  = (78.6%float, true, true).
Proof. vm_compute. reflexivity. Qed.

(** ** Two observations *)

(** X15: on two observations the mean interval is the midpoint plus and
    minus the multiplier times half their distance; with multiplier 1 it is
    exactly the interval from the smaller to the larger observation. *)
Theorem meanInterval_two_observations (a b tstar : R) :
  meanInterval [a; b] tstar
  = Ok (Fin ((a + b) / 2 - tstar * Rabs ((a - b) / 2)),
        Fin ((a + b) / 2 + tstar * Rabs ((a - b) / 2)))
  /\
  meanInterval [a; b] 1 = Ok (Fin (Rmin a b), Fin (Rmax a b)).
Proof.
  assert (Em : spec_mean [a; b] = (a + b) / 2).
  { unfold spec_mean. cbn [length INR]. rewrite !Rsum_cons, Rsum_nil.
    field. }
  assert (Es : spec_se_mean [a; b] = Rabs ((a - b) / 2)).
  { unfold spec_se_mean, spec_sd. rewrite Em.
    cbn [map length INR]. rewrite !Rsum_cons, Rsum_nil.
    replace (((a - (a + b) / 2) ^ 2 + ((b - (a + b) / 2) ^ 2 + 0))
             / (1 + 1 - 1))
      with (Rsqr (a - b) / 2) by (unfold Rsqr; field).
    rewrite <- sqrt_div_alt by lra.
    replace (Rsqr (a - b) / 2 / (1 + 1)) with (Rsqr ((a - b) / 2))
      by (unfold Rsqr; field).
    apply sqrt_Rsqr_abs. }
  assert (E : forall t, meanInterval [a; b] t
              = Ok (Fin ((a + b) / 2 - t * Rabs ((a - b) / 2)),
                    Fin ((a + b) / 2 + t * Rabs ((a - b) / 2)))).
  { intros t. rewrite meanInterval_eq by (simpl; lia). now rewrite Em, Es. }
  split; [apply E |].
  rewrite E. unfold Rmin, Rmax.
  destruct (Rle_dec a b) as [L | G].
  - rewrite Rabs_left1 by lra. do 2 f_equal; f_equal; lra.
  - rewrite Rabs_pos_eq by lra. do 2 f_equal; f_equal; lra.
Qed.
